(** * PerformanceCalculator: a shallow embedding of
      [stock_market/performance_calculation.py]

    The Python class [PerformanceCalculator] is embedded method by method.

    - Numbers.  Python [int] and [float] values are both modelled by exact
      rationals [Q] (the "real" of the specification); rounding, overflow
      and NaN of IEEE doubles are outside the model.  A division whose
      divisor is zero raises [ZeroDivisionError], as both [int] and [float]
      division do in Python.  The one irrational operation of the file,
      [x ** 0.5], is a parameter of the development.
    - Integers used as periods and indices are [Z]; slices and subscripts
      follow Python (negative values count from the end, slices clamp,
      subscripts raise [IndexError]).
    - Effects.  Every method runs in a state-and-exception monad over the
      instance record (fields [performance_calculations] and [prices]).
    - pandas.  The few [DataFrame] operations used by the two reporting
      methods are modelled on a small table type. *)

From Stdlib Require Import ZArith QArith Qminmax Qpower List Sorted String Bool Lia Lqa.
Import ListNotations.
Open Scope Z_scope.
Open Scope Q_scope.

Set Implicit Arguments.

(* ================================================================== *)
(** ** Exceptions, instance state and the method monad *)

(** The Python exceptions the methods of the class can raise. *)
Inductive exn : Type :=
| ZeroDivisionError
| IndexError
| KeyError (key : string)
| NameError (name : string)
| ValueError
| AssertionError.

Inductive outcome (A : Type) : Type :=
| Return (a : A)
| Raise (e : exn).
Arguments Return {A} a.
Arguments Raise {A} e.

(** The instance: the two attributes assigned by [__init__]. *)
Record PerformanceCalculator : Type := mkSelf {
  performance_calculations : list (string * Q);
  prices : list Q
}.

(** [__init__(self, performance_calculations)]: the argument is not used. *)
Definition __init__ {A : Type} (performance_calculations : A)
  : PerformanceCalculator :=
  {| performance_calculations := []; prices := [] |}.

(** A method body: from the instance to an outcome and the instance after. *)
Definition M (A : Type) : Type :=
  PerformanceCalculator -> outcome A * PerformanceCalculator.

Definition ret {A} (a : A) : M A := fun self => (Return a, self).
Definition raise {A} (e : exn) : M A := fun self => (Raise e, self).
Definition bind {A B} (m : M A) (k : A -> M B) : M B :=
  fun self =>
    match m self with
    | (Return a, self') => k a self'
    | (Raise e, self') => (Raise e, self')
    end.

Declare Scope py_scope.
Delimit Scope py_scope with py.
Notation "x <- m ;; k" := (bind m (fun x => k))
  (at level 61, m at next level, right associativity) : py_scope.
Open Scope py_scope.

(** Reading an attribute of [self]. *)
Definition self_prices : M (list Q) := fun self => (Return (prices self), self).

(** The outcome of a call and the instance it leaves. *)
Definition result_of {A} (m : M A) (self : PerformanceCalculator) : outcome A :=
  fst (m self).
Definition state_after {A} (m : M A) (self : PerformanceCalculator)
  : PerformanceCalculator :=
  snd (m self).

(** Loops and comprehensions whose body may raise. *)
Fixpoint for_each {A S} (body : S -> A -> M S) (l : list A) (acc : S) : M S :=
  match l with
  | [] => ret acc
  | x :: rest => acc' <- body acc x ;; for_each body rest acc'
  end.

Fixpoint comprehension {A B} (f : A -> M B) (l : list A) : M (list B) :=
  match l with
  | [] => ret []
  | x :: rest => y <- f x ;; ys <- comprehension f rest ;; ret (y :: ys)
  end.

(* ================================================================== *)
(** ** Python built-ins on numbers and lists *)

(** [a / b] *)
Definition truediv (a b : Q) : M Q :=
  if Qeq_bool b 0 then raise ZeroDivisionError else ret (a / b).

(** [a > b] and [a < b] *)
Definition Qgtb (a b : Q) : bool := negb (Qle_bool a b).
Definition Qltb (a b : Q) : bool := negb (Qle_bool b a).

(** [sum(l)]: starts from [0] and adds from the left. *)
Definition sum (l : list Q) : Q := fold_left Qplus l 0.

(** [len(l)] *)
Definition len {A} (l : list A) : Z := Z.of_nat (List.length l).

(** [l[:stop]] *)
Definition slice_to {A} (l : list A) (stop : Z) : list A :=
  let stop' := if (stop <? 0)%Z then Z.max (len l + stop) 0
               else Z.min stop (len l) in
  firstn (Z.to_nat stop') l.

(** [l[start:]] *)
Definition slice_from {A} (l : list A) (start : Z) : list A :=
  let start' := if (start <? 0)%Z then Z.max (len l + start) 0
                else Z.min start (len l) in
  skipn (Z.to_nat start') l.

(** [l[i]] *)
Definition getitem (l : list Q) (i : Z) : M Q :=
  let i' := if (i <? 0)%Z then (len l + i)%Z else i in
  if (i' <? 0)%Z then raise IndexError
  else match nth_error l (Z.to_nat i') with
       | Some x => ret x
       | None => raise IndexError
       end.

(** [range(a, b)] *)
Definition range (a b : Z) : list Z :=
  map (fun k => (a + Z.of_nat k)%Z) (seq 0 (Z.to_nat (b - a))).

(* ================================================================== *)
(** ** Technical indicators *)

(** [calculate_mas(self, prices, period)] *)
Definition calculate_mas (prices : list Q) (period : Z) : M (Q * list Q) :=
  held <- self_prices ;;
  simple_ma <- truediv (sum (slice_to held period)) (inject_Z period) ;;
  multiplier <- truediv 2 (inject_Z (period + 1)) ;;
  let exponential_ma := [simple_ma * multiplier] in
  held' <- self_prices ;;
  exponential_ma <-
    for_each
      (fun exponential_ma price =>
         prev <- getitem exponential_ma (-1) ;;
         prev' <- getitem exponential_ma (-1) ;;
         ret (exponential_ma ++ [(price - prev) * multiplier + prev']))
      (slice_to held' period) exponential_ma ;;
  ret (simple_ma, exponential_ma).

(** [self.prices[i]] *)
Definition self_prices_at (i : Z) : M Q :=
  held <- self_prices ;; getitem held i.

(** [calculate_rsi(self, prices, period=14)] *)
Definition calculate_rsi (prices : list Q) (period : Z) : M Q :=
  deltas <-
    comprehension
      (fun i => a <- self_prices_at i ;;
                b <- self_prices_at (i - 1) ;;
                ret (a - b))
      (range 1 (len prices)) ;;
  let gains := map (fun delta => if Qgtb delta 0 then delta else 0) deltas in
  let losses := map (fun delta => if Qltb delta 0 then - delta else 0) deltas in
  average_gain <- truediv (sum gains) (inject_Z (len gains)) ;;
  average_losses <- truediv (sum losses) (inject_Z (len losses)) ;;
  rs <- truediv average_gain average_losses ;;
  quotient <- truediv 100 (1 + rs) ;;
  let rsi := 100 - quotient in
  ret rsi.

Section FloatPower.

(** [x ** 0.5] on a non-negative float.  On a negative float Python
    returns a [complex], which the [assert isinstance(std_dev, float)]
    of the method rejects. *)
Variable pow_half : Q -> Q.

(** [calculate_bollinger_bands(self, prices, period=20, num_std_dev=2)] *)
Definition calculate_bollinger_bands
    (prices : list Q) (period : Z) (num_std_dev : Q) : M (Q * Q * Q) :=
  mas <- calculate_mas prices period ;;
  let sma := fst mas in
  radicand <-
    truediv
      (sum (map (fun price => (price - sma) ^ 2) (slice_from prices (- period))))
      (inject_Z period) ;;
  std_dev <-
    (if Qltb radicand 0 then raise AssertionError
     else ret (pow_half radicand)) ;;
  let upper_band := sma + (num_std_dev * std_dev) in
  let lower_band := sma - (num_std_dev * std_dev) in
  ret (upper_band, lower_band, sma).

End FloatPower.

(* ================================================================== *)
(** ** Risk, position and portfolio functions *)

(** [calculate_stop_loss(self, entry_price, stop_loss_percentage)] *)
Definition calculate_stop_loss (entry_price stop_loss_percentage : Q) : M Q :=
  ret ((1 - stop_loss_percentage) * entry_price).

(** [calculate_take_profit(self, entry_price, take_profit_percentage)] *)
Definition calculate_take_profit (entry_price take_profit_percentage : Q) : M Q :=
  ret ((1 + take_profit_percentage) * entry_price).

(** [calculate_position_size(self, account_balance, risk_per_trade,
    stop_loss_amount)] *)
Definition calculate_position_size
    (account_balance risk_per_trade stop_loss_amount : Q) : M Q :=
  truediv (account_balance * risk_per_trade) stop_loss_amount.

(** [moving_average_crossover(self, prices, short_period, long_period)] *)
Definition moving_average_crossover
    (prices : list Q) (short_period long_period : Z) : M string :=
  held <- self_prices ;;
  short <- calculate_mas held short_period ;;
  let short_ma := fst short in
  held' <- self_prices ;;
  long <- calculate_mas held' long_period ;;
  let long_ma := fst long in
  if Qgtb short_ma long_ma then ret "Buy"%string
  else if Qltb short_ma long_ma then ret "Sell"%string
  else ret "Hold"%string.

(** A Python [dict] with string keys, in insertion order. *)
Definition dict (V : Type) : Type := list (string * V).

(** [calculate_allocation_ratios(self, total_capital, allocations)] *)
Definition calculate_allocation_ratios
    (total_capital : Q) (allocations : dict Q) : M (dict Q) :=
  ret (map (fun item => (fst item, total_capital * snd item)) allocations).

(** [rebalance_portfolio(self, portfolio, target_ratios)] *)
Definition rebalance_portfolio (portfolio target_ratios : dict Q) : M (dict Q) :=
  let total_value := sum (map snd portfolio) in
  ret (map (fun item => (fst item, total_value * snd item)) target_ratios).

(** One turn of the loop of [calculate_max_drawdown]; the loop state is
    the pair [(peak, max_drawdown)]. *)
Definition drawdown_step (st : Q * Q) (value : Q) : M (Q * Q) :=
  let peak := fst st in
  let max_drawdown := snd st in
  let peak := if Qgtb value peak then value else peak in
  drawdown <- truediv (peak - value) peak ;;
  let max_drawdown :=
    if Qgtb drawdown max_drawdown then drawdown else max_drawdown in
  ret (peak, max_drawdown).

(** [calculate_max_drawdown(self, portfolio_values)] *)
Definition calculate_max_drawdown (portfolio_values : list Q) : M Q :=
  peak <- getitem portfolio_values 0 ;;
  let max_drawdown := 0 in
  st <- for_each drawdown_step portfolio_values (peak, max_drawdown) ;;
  ret (snd st).

(** [calculate_risk_reward_ratio(self, potential_profit, potential_loss)] *)
Definition calculate_risk_reward_ratio (potential_profit potential_loss : Q)
  : M Q :=
  truediv potential_loss potential_profit.

(** [calculate_volatility(self, prices, period)] *)
Definition calculate_volatility (prices : list Q) (period : Z) : M Q :=
  returns <-
    comprehension
      (fun i => a <- getitem prices i ;;
                b <- getitem prices (i - 1) ;;
                q <- truediv a b ;;
                ret (q - 1))
      (range 1 (len prices)) ;;
  squares <-
    comprehension
      (fun r => mean <- truediv (sum returns) (inject_Z (len returns)) ;;
                ret ((r - mean) ^ 2))
      returns ;;
  ret (sum squares).

(** [calculate_lookback_period(self, prices, period)] *)
Definition calculate_lookback_period (prices : list Q) (period : Z)
  : M (list Q) :=
  ret (slice_from prices (- period)).

(* ================================================================== *)
(** ** Sustainability functions *)

(** [calculate_carbon_footprint(self, activity_data, emission_factor)]:
    a plain product of two numbers. *)
Definition calculate_carbon_footprint (activity_data emission_factor : Q) : M Q :=
  let ghg_emissions := activity_data * emission_factor in
  ret ghg_emissions.

(** *** The pandas operations the two reports use *)

(** Row labels: the positions of a [RangeIndex], or a name. *)
Inductive label : Type :=
| Position (i : nat)
| Label (name : string).

Definition label_eqb (a b : label) : bool :=
  match a, b with
  | Position i, Position j => Nat.eqb i j
  | Label s, Label t => String.eqb s t
  | _, _ => false
  end.

(** A [DataFrame]: row labels, and the columns in order, each holding one
    value per row. *)
Record DataFrame : Type := mkDataFrame {
  index : list label;
  columns : list (string * list Q)
}.

(** [pd.DataFrame(data)] for a dict of lists; raises [ValueError] when the
    lists differ in length. *)
Definition pd_DataFrame (data : dict (list Q)) : M DataFrame :=
  match data with
  | [] => ret {| index := []; columns := [] |}
  | (_, first) :: rest =>
      if forallb (fun item => Nat.eqb (List.length (snd item)) (List.length first)) rest
      then ret {| index := map Position (seq 0 (List.length first));
                  columns := data |}
      else raise ValueError
  end.

(** [df.sum(axis=1)]: one sum per row, across the columns. *)
Definition df_sum_rows (df : DataFrame) : list Q :=
  map (fun i => sum (map (fun col => nth i (snd col) 0) (columns df)))
      (seq 0 (List.length (index df))).

(** [df.sum()]: one sum per column, keyed by the column name. *)
Definition df_sum (df : DataFrame) : dict Q :=
  map (fun col => (fst col, sum (snd col))) (columns df).

(** [df[name]]: raises [KeyError] when no column has that name. *)
Definition df_getitem (df : DataFrame) (name : string) : M (list Q) :=
  match find (fun col => String.eqb (fst col) name) (columns df) with
  | Some col => ret (snd col)
  | None => raise (KeyError name)
  end.

(** [df[name] = values]: replaces the column of that name, or appends a
    new last column. *)
Fixpoint set_column (cols : list (string * list Q)) (name : string)
    (values : list Q) : list (string * list Q) :=
  match cols with
  | [] => [(name, values)]
  | (k, v) :: rest =>
      if String.eqb k name then (k, values) :: rest
      else (k, v) :: set_column rest name values
  end.

Definition df_setitem (df : DataFrame) (name : string) (values : list Q)
  : DataFrame :=
  {| index := index df; columns := set_column (columns df) name values |}.

(** The position of a row label in the index. *)
Fixpoint position_of (lbl : label) (idx : list label) : option nat :=
  match idx with
  | [] => None
  | l :: rest =>
      if label_eqb l lbl then Some O
      else option_map S (position_of lbl rest)
  end.

(** [values[i] = v] on a list of cells *)
Fixpoint set_nth (i : nat) (v : Q) (values : list Q) : list Q :=
  match i, values with
  | _, [] => []
  | O, _ :: rest => v :: rest
  | S i', x :: rest => x :: set_nth i' v rest
  end.

(** The entry of a series for a key (every column of a frame is a key of
    the frame's [df.sum()], the only series assigned to a row). *)
Definition series_get (series : dict Q) (name : string) : Q :=
  match find (fun item => String.eqb (fst item) name) series with
  | Some item => snd item
  | None => 0
  end.

(** [df.loc[lbl] = series]: overwrites the row of that label, or appends a
    new last row. *)
Definition df_loc_set (df : DataFrame) (lbl : label) (series : dict Q)
  : DataFrame :=
  match position_of lbl (index df) with
  | Some i =>
      {| index := index df;
         columns := map (fun col => (fst col,
                                     set_nth i (series_get series (fst col)) (snd col)))
                        (columns df) |}
  | None =>
      {| index := index df ++ [lbl];
         columns := map (fun col => (fst col,
                                     snd col ++ [series_get series (fst col)]))
                        (columns df) |}
  end.

(** [df.at[lbl, name] = v] for a row and a column that exist, as they do
    where the reports use it. *)
Definition df_at_set (df : DataFrame) (lbl : label) (name : string) (v : Q)
  : DataFrame :=
  match position_of lbl (index df) with
  | Some i =>
      {| index := index df;
         columns := map (fun col => if String.eqb (fst col) name
                                    then (fst col, set_nth i v (snd col))
                                    else col)
                        (columns df) |}
  | None => df
  end.

(** The names bound at module level are [pd] and [PerformanceCalculator];
    reading any other global name raises [NameError]. *)
Definition global_name {A} (name : string) : M A := raise (NameError name).

(** [calculate_energy_consumption(self, energy_data)] *)
Definition calculate_energy_consumption (energy_data : dict (list Q))
  : M DataFrame :=
  df <- pd_DataFrame energy_data ;;
  let df := df_setitem df "Total Energy Consumption (kWh" (df_sum_rows df) in
  total_column <- df_getitem df "Total Energy Consumption (kWh)" ;;
  let annual_total_consumption := sum total_column in
  let df := df_loc_set df (Label "Annual Total") (df_sum df) in
  let df := df_at_set df (Label "Annual Total") "Total Energy Consumption (kWh)"
                      annual_total_consumption in
  ret df.

(** [calculate_water_usage(self, water_usage_data)]: the row sums are
    taken on [df], a name that is bound neither in the method nor in the
    module. *)
Definition calculate_water_usage (water_usage_data : dict (list Q))
  : M DataFrame :=
  water_usage_df <- pd_DataFrame water_usage_data ;;
  df <- global_name "df" ;;
  let water_usage_df :=
    df_setitem water_usage_df "Total Water Usage (cubic meters)" (df_sum_rows df) in
  total_column <- df_getitem water_usage_df "Total Water Usage (cubic meters)" ;;
  let annual_total_water_usage := sum total_column in
  let water_usage_df :=
    df_loc_set water_usage_df (Label "Annual Total") (df_sum water_usage_df) in
  let water_usage_df :=
    df_at_set water_usage_df (Label "Annual Total")
              "Total Water Usage (cubic meters)" annual_total_water_usage in
  ret water_usage_df.

(* ================================================================== *)
(** ** The class as a whole *)

(** A call of one method of the class, with its arguments. *)
Inductive method_call : Type :=
| Call_calculate_mas (prices : list Q) (period : Z)
| Call_calculate_rsi (prices : list Q) (period : Z)
| Call_calculate_bollinger_bands (prices : list Q) (period : Z) (num_std_dev : Q)
| Call_calculate_stop_loss (entry_price stop_loss_percentage : Q)
| Call_calculate_take_profit (entry_price take_profit_percentage : Q)
| Call_calculate_position_size (account_balance risk_per_trade stop_loss_amount : Q)
| Call_moving_average_crossover (prices : list Q) (short_period long_period : Z)
| Call_calculate_allocation_ratios (total_capital : Q) (allocations : dict Q)
| Call_rebalance_portfolio (portfolio target_ratios : dict Q)
| Call_calculate_max_drawdown (portfolio_values : list Q)
| Call_calculate_risk_reward_ratio (potential_profit potential_loss : Q)
| Call_calculate_volatility (prices : list Q) (period : Z)
| Call_calculate_lookback_period (prices : list Q) (period : Z)
| Call_calculate_carbon_footprint (activity_data emission_factor : Q)
| Call_calculate_energy_consumption (energy_data : dict (list Q))
| Call_calculate_water_usage (water_usage_data : dict (list Q)).

(** What a method returns. *)
Inductive py_value : Type :=
| Number (x : Q)
| NumberList (l : list Q)
| Str (s : string)
| Tuple_mas (simple_ma : Q) (exponential_ma : list Q)
| Tuple_bands (upper_band lower_band sma : Q)
| Dict (d : dict Q)
| Frame (df : DataFrame).

Definition fmap {A B} (f : A -> B) (m : M A) : M B := x <- m ;; ret (f x).

(** Running a call on an instance. *)
Definition invoke (pow_half : Q -> Q) (c : method_call) : M py_value :=
  match c with
  | Call_calculate_mas prices period =>
      fmap (fun r => Tuple_mas (fst r) (snd r)) (calculate_mas prices period)
  | Call_calculate_rsi prices period =>
      fmap Number (calculate_rsi prices period)
  | Call_calculate_bollinger_bands prices period num_std_dev =>
      fmap (fun r => Tuple_bands (fst (fst r)) (snd (fst r)) (snd r))
           (calculate_bollinger_bands pow_half prices period num_std_dev)
  | Call_calculate_stop_loss entry_price stop_loss_percentage =>
      fmap Number (calculate_stop_loss entry_price stop_loss_percentage)
  | Call_calculate_take_profit entry_price take_profit_percentage =>
      fmap Number (calculate_take_profit entry_price take_profit_percentage)
  | Call_calculate_position_size account_balance risk_per_trade stop_loss_amount =>
      fmap Number
           (calculate_position_size account_balance risk_per_trade stop_loss_amount)
  | Call_moving_average_crossover prices short_period long_period =>
      fmap Str (moving_average_crossover prices short_period long_period)
  | Call_calculate_allocation_ratios total_capital allocations =>
      fmap Dict (calculate_allocation_ratios total_capital allocations)
  | Call_rebalance_portfolio portfolio target_ratios =>
      fmap Dict (rebalance_portfolio portfolio target_ratios)
  | Call_calculate_max_drawdown portfolio_values =>
      fmap Number (calculate_max_drawdown portfolio_values)
  | Call_calculate_risk_reward_ratio potential_profit potential_loss =>
      fmap Number (calculate_risk_reward_ratio potential_profit potential_loss)
  | Call_calculate_volatility prices period =>
      fmap Number (calculate_volatility prices period)
  | Call_calculate_lookback_period prices period =>
      fmap NumberList (calculate_lookback_period prices period)
  | Call_calculate_carbon_footprint activity_data emission_factor =>
      fmap Number (calculate_carbon_footprint activity_data emission_factor)
  | Call_calculate_energy_consumption energy_data =>
      fmap Frame (calculate_energy_consumption energy_data)
  | Call_calculate_water_usage water_usage_data =>
      fmap Frame (calculate_water_usage water_usage_data)
  end.

(* ================================================================== *)
(** ** What the methods are compared with *)

(** The arithmetic mean of a list. *)
Definition arithmetic_mean (l : list Q) : Q :=
  fold_right Qplus 0 l / inject_Z (Z.of_nat (List.length l)).

(** The exponential recurrence: from the previous value and one price to
    the next value, collected along a list of prices. *)
Fixpoint ema_steps (multiplier prev : Q) (ps : list Q) : list Q :=
  match ps with
  | [] => []
  | price :: rest =>
      let next := (price - prev) * multiplier + prev in
      next :: ema_steps multiplier next rest
  end.

(** The running peak at position [i]: it starts at the first value and is
    raised, left to right, by every value up to position [i]. *)
Definition running_peak (values : list Q) (i : nat) : Q :=
  fold_left Qmax (firstn (S i) values) (nth 0 values 0).

(** The drawdown at position [i]. *)
Definition drawdown_at (values : list Q) (i : nat) : Q :=
  (running_peak values i - nth i values 0) / running_peak values i.

(** Per-step differences of a series. *)
Fixpoint price_deltas (ps : list Q) : list Q :=
  match ps with
  | [] => []
  | x :: rest =>
      match rest with
      | [] => []
      | y :: _ => (y - x) :: price_deltas rest
      end
  end.

(** A gain is the difference when it is positive, else 0; a loss is the
    opposite of the difference when it is negative, else 0. *)
Definition gain_of (delta : Q) : Q := if Qlt_le_dec 0 delta then delta else 0.
Definition loss_of (delta : Q) : Q := if Qlt_le_dec delta 0 then - delta else 0.

(** The body of the first comprehension of [calculate_volatility], for one
    index. *)
Definition simple_return (xs : list Q) (i : Z) : M Q :=
  a <- getitem xs i ;;
  b <- getitem xs (i - 1) ;;
  q <- truediv a b ;;
  ret (q - 1).

(** A method body that leaves the instance as it found it, whether it
    returns or raises. *)
Definition preserves_state {A} (m : M A) : Prop :=
  forall self, state_after m self = self.

(* ================================================================== *)
(** * Properties *)

(** ** Running the monad *)

Lemma bind_return {A B} (m : M A) (k : A -> M B) self a self' :
  m self = (Return a, self') -> bind m k self = k a self'.
Proof. intros H. unfold bind. now rewrite H. Qed.

Lemma bind_raise {A B} (m : M A) (k : A -> M B) self e self' :
  m self = (Raise e, self') -> bind m k self = (Raise e, self').
Proof. intros H. unfold bind. now rewrite H. Qed.

Lemma truediv_ok (a b : Q) self :
  ~ b == 0 -> truediv a b self = (Return (a / b), self).
Proof.
  intros H. unfold truediv.
  destruct (Qeq_bool b 0) eqn:E; [|reflexivity].
  apply Qeq_bool_iff in E. contradiction.
Qed.

Lemma truediv_zero (a b : Q) self :
  b == 0 -> truediv a b self = (Raise ZeroDivisionError, self).
Proof.
  intros H. unfold truediv.
  apply Qeq_bool_iff in H. now rewrite H.
Qed.

Lemma inject_Z_nonzero (z : Z) : z <> 0%Z -> ~ inject_Z z == 0.
Proof.
  intros H E. apply H. unfold Qeq in E. simpl in E. lia.
Qed.

Lemma Qgtb_true (a b : Q) : Qgtb a b = true <-> b < a.
Proof.
  unfold Qgtb. rewrite negb_true_iff, <- not_true_iff_false, Qle_bool_iff.
  split; [apply Qnot_le_lt | apply Qlt_not_le].
Qed.

Lemma Qgtb_false (a b : Q) : Qgtb a b = false <-> a <= b.
Proof.
  unfold Qgtb. rewrite negb_false_iff. apply Qle_bool_iff.
Qed.

Lemma Qltb_true (a b : Q) : Qltb a b = true <-> a < b.
Proof. apply (Qgtb_true b a). Qed.

Lemma Qltb_false (a b : Q) : Qltb a b = false <-> b <= a.
Proof. apply (Qgtb_false b a). Qed.

(** ** Slices and subscripts *)

Lemma slice_to_leading {A} (l : list A) (period : Z) :
  (0 <= period <= len l)%Z -> slice_to l period = firstn (Z.to_nat period) l.
Proof.
  intros H. unfold slice_to.
  destruct (period <? 0)%Z eqn:E; [apply Z.ltb_lt in E; lia|].
  now rewrite Z.min_l by lia.
Qed.

Lemma slice_to_short {A} (l : list A) (period : Z) :
  (len l <= period)%Z -> slice_to l period = l.
Proof.
  intros H. unfold slice_to.
  assert (0 <= len l)%Z by (unfold len; lia).
  destruct (period <? 0)%Z eqn:E; [apply Z.ltb_lt in E; lia|].
  rewrite Z.min_r by lia. unfold len. rewrite Nat2Z.id. apply firstn_all.
Qed.

Lemma getitem_last (l : list Q) (x : Q) self :
  getitem (l ++ [x]) (-1) self = (Return x, self).
Proof.
  unfold getitem. cbv zeta.
  assert (E : (len (l ++ [x]) + -1)%Z = Z.of_nat (List.length l)).
  { unfold len. rewrite length_app. simpl. lia. }
  change (-1 <? 0)%Z with true. cbv iota. rewrite E.
  destruct (Z.of_nat (List.length l) <? 0)%Z eqn:F; [apply Z.ltb_lt in F; lia|].
  rewrite Nat2Z.id, nth_error_app2, Nat.sub_diag by lia. reflexivity.
Qed.

(** ** Moving averages *)

Lemma ema_steps_length multiplier prev ps :
  List.length (ema_steps multiplier prev ps) = List.length ps.
Proof. revert prev. induction ps; simpl; intros; [reflexivity | now rewrite IHps]. Qed.

Lemma ema_steps_nth multiplier ps : forall prev i,
  (i < List.length ps)%nat ->
  nth (S i) (prev :: ema_steps multiplier prev ps) 0
  = (nth i ps 0 - nth i (prev :: ema_steps multiplier prev ps) 0) * multiplier
    + nth i (prev :: ema_steps multiplier prev ps) 0.
Proof.
  induction ps as [|p ps IH]; intros prev i Hi; simpl in Hi; [lia|].
  destruct i as [|i]; [reflexivity|].
  specialize (IH ((p - prev) * multiplier + prev) i ltac:(lia)).
  simpl in *. exact IH.
Qed.

Lemma sum_from (l : list Q) (acc : Q) :
  fold_left Qplus l acc == acc + fold_right Qplus 0 l.
Proof.
  revert acc. induction l as [|x l IH]; intros acc; cbn [fold_left fold_right].
  - now rewrite Qplus_0_r.
  - rewrite IH. now rewrite Qplus_assoc.
Qed.

Lemma sum_fold_right (l : list Q) : sum l == fold_right Qplus 0 l.
Proof. unfold sum. rewrite sum_from. apply Qplus_0_l. Qed.

(** The appending loop of [calculate_mas] computes the recurrence. *)
Lemma ema_loop multiplier (ps : list Q) : forall (done : list Q) (prev : Q) self,
  for_each
    (fun exponential_ma price =>
       prev <- getitem exponential_ma (-1) ;;
       prev' <- getitem exponential_ma (-1) ;;
       ret (exponential_ma ++ [(price - prev) * multiplier + prev']))
    ps (done ++ [prev]) self
  = (Return ((done ++ [prev]) ++ ema_steps multiplier prev ps), self).
Proof.
  induction ps as [|p ps IH]; intros done prev self; simpl.
  - now rewrite app_nil_r.
  - erewrite bind_return.
    2:{ erewrite bind_return by apply getitem_last.
        erewrite bind_return by apply getitem_last.
        reflexivity. }
    rewrite IH. now rewrite <- !app_assoc.
Qed.

(** What [calculate_mas] returns whenever neither division fails. *)
Lemma calculate_mas_run (xs : list Q) (period : Z) self :
  period <> 0%Z -> period <> (-1)%Z ->
  let window := slice_to (prices self) period in
  let simple_ma := sum window / inject_Z period in
  let multiplier := 2 / inject_Z (period + 1) in
  calculate_mas xs period self
  = (Return (simple_ma,
             simple_ma * multiplier
               :: ema_steps multiplier (simple_ma * multiplier) window),
     self).
Proof.
  intros H0 H1. cbv zeta. unfold calculate_mas.
  erewrite bind_return by reflexivity.
  erewrite bind_return by (apply truediv_ok, inject_Z_nonzero; assumption).
  erewrite bind_return by (apply truediv_ok, inject_Z_nonzero; lia).
  erewrite bind_return by reflexivity.
  erewrite bind_return by (apply (ema_loop _ _ [])).
  reflexivity.
Qed.

Lemma nth_firstn_lt {A} (l : list A) (d : A) : forall n i,
  (i < n)%nat -> nth i (firstn n l) d = nth i l d.
Proof.
  induction l as [|x l IH]; intros n i Hi.
  - now rewrite firstn_nil.
  - destruct n as [|n]; [lia|]. destruct i as [|i]; simpl; [reflexivity|].
    apply IH. lia.
Qed.

(** C1.  For a held series and a period with [1 <= period <= len], the
    simple average returned by [calculate_mas] is the arithmetic mean of
    the first [period] held prices (the leading window), and the
    exponential series has [period + 1] elements: it starts at
    [simple_ma * multiplier] with [multiplier = 2 / (period + 1)], and
    each further element is [(price - prev) * multiplier + prev] for the
    next of the first [period] prices, in order. *)
Theorem calculate_mas_leading_window
    (self : PerformanceCalculator) (xs : list Q) (period : Z) :
  (1 <= period <= len (prices self))%Z ->
  exists simple_ma exponential_ma,
    calculate_mas xs period self = (Return (simple_ma, exponential_ma), self) /\
    simple_ma == arithmetic_mean (firstn (Z.to_nat period) (prices self)) /\
    List.length exponential_ma = S (Z.to_nat period) /\
    nth 0 exponential_ma 0 = simple_ma * (2 / inject_Z (period + 1)) /\
    forall i, (i < Z.to_nat period)%nat ->
      nth (S i) exponential_ma 0
      = (nth i (prices self) 0 - nth i exponential_ma 0)
          * (2 / inject_Z (period + 1))
        + nth i exponential_ma 0.
Proof.
  intros Hp.
  assert (Hlen : List.length (firstn (Z.to_nat period) (prices self))
                 = Z.to_nat period).
  { apply firstn_length_le. unfold len in Hp. lia. }
  pose proof (@calculate_mas_run xs period self ltac:(lia) ltac:(lia)) as Hrun.
  cbv zeta in Hrun. rewrite slice_to_leading in Hrun by lia.
  eexists. eexists. split; [exact Hrun|].
  split; [|split; [|split]].
  - unfold arithmetic_mean. rewrite Hlen, Z2Nat.id by lia.
    now rewrite sum_fold_right.
  - simpl. now rewrite ema_steps_length, Hlen.
  - reflexivity.
  - intros i Hi. rewrite ema_steps_nth by lia.
    now rewrite nth_firstn_lt by assumption.
Qed.

Lemma calculate_mas_leading_window_witness :
  exists simple_ma exponential_ma,
    calculate_mas [9] 2 (mkSelf [] [1; 2; 6])
    = (Return (simple_ma, exponential_ma), mkSelf [] [1; 2; 6]) /\
    simple_ma == arithmetic_mean (firstn (Z.to_nat 2) [1; 2; 6]) /\
    List.length exponential_ma = S (Z.to_nat 2) /\
    nth 0 exponential_ma 0 = simple_ma * (2 / inject_Z (2 + 1)) /\
    forall i, (i < Z.to_nat 2)%nat ->
      nth (S i) exponential_ma 0
      = (nth i [1; 2; 6] 0 - nth i exponential_ma 0) * (2 / inject_Z (2 + 1))
        + nth i exponential_ma 0.
Proof.
  apply (@calculate_mas_leading_window (mkSelf [] [1; 2; 6]) [9] 2).
  unfold len; simpl; lia.
Defined.

(** C2.  The outcome of [calculate_mas] (result or exception, and the
    instance left behind) does not depend on the [prices] argument: for
    every instance, every period (in particular every period [>= 1]) and
    any two argument lists, the two calls agree. *)
Theorem calculate_mas_ignores_prices
    (self : PerformanceCalculator) (period : Z) (xs ys : list Q) :
  calculate_mas xs period self = calculate_mas ys period self.
Proof. reflexivity. Qed.

(** C3, as the specification states it: a period below 1, or a held
    series shorter than the period, makes [calculate_mas] fail.  It does
    not: on the two-element series [1; 2] and period [5] the method
    returns the pair whose first component is [3/5]. *)
Lemma calculate_mas_short_series_returns :
  (len (prices (mkSelf [] [1; 2]%Q)) < 5)%Z /\
  exists simple_ma exponential_ma,
    result_of (calculate_mas [1; 2] 5) (mkSelf [] [1; 2])
    = Return (simple_ma, exponential_ma) /\
    simple_ma == 3 # 5 /\
    forall e, result_of (calculate_mas [1; 2] 5) (mkSelf [] [1; 2]) <> Raise e.
Proof.
  split; [vm_compute; reflexivity|].
  eexists. eexists. split; [vm_compute; reflexivity|].
  split; [vm_compute; reflexivity|].
  intros e. vm_compute. discriminate.
Qed.

(** C3, amended.  The method validates nothing.  When the period is below
    1 or exceeds the length of the held series: for period [0] and period
    [-1] the raw [ZeroDivisionError] escapes (from the average and from
    the multiplier); for every other such period the method returns a
    result computed on Python's clamped slice [self.prices[:period]], the
    whole held series when it is shorter than a positive period. *)
Theorem calculate_mas_invalid_period
    (self : PerformanceCalculator) (xs : list Q) (period : Z) :
  (period < 1 \/ len (prices self) < period)%Z ->
  ((period = 0 \/ period = -1)%Z ->
     calculate_mas xs period self = (Raise ZeroDivisionError, self)) /\
  (period <> 0%Z -> period <> (-1)%Z ->
     exists simple_ma exponential_ma,
       calculate_mas xs period self = (Return (simple_ma, exponential_ma), self) /\
       simple_ma = sum (slice_to (prices self) period) / inject_Z period /\
       ((1 <= period)%Z -> simple_ma = sum (prices self) / inject_Z period)).
Proof.
  intros Hbad. split.
  - intros [-> | ->]; unfold calculate_mas.
    + erewrite bind_return by reflexivity.
      erewrite bind_raise; [reflexivity|]. now apply truediv_zero.
    + erewrite bind_return by reflexivity.
      erewrite bind_return by (apply truediv_ok; discriminate).
      erewrite bind_raise; [reflexivity|]. now apply truediv_zero.
  - intros H0 H1.
    pose proof (@calculate_mas_run xs period self H0 H1) as Hrun.
    cbv zeta in Hrun.
    eexists. eexists. split; [exact Hrun|]. split; [reflexivity|].
    intros Hpos. rewrite slice_to_short by lia. reflexivity.
Qed.

Lemma calculate_mas_invalid_period_witness :
  (calculate_mas [] 0 (mkSelf [] [1; 2])
   = (Raise ZeroDivisionError, mkSelf [] [1; 2])) /\
  exists simple_ma exponential_ma,
    calculate_mas [] 5 (mkSelf [] [1; 2])
    = (Return (simple_ma, exponential_ma), mkSelf [] [1; 2]) /\
    simple_ma = sum [1; 2] / inject_Z 5.
Proof.
  split.
  - apply (@calculate_mas_invalid_period (mkSelf [] [1; 2]) [] 0).
    + left; lia.
    + left; reflexivity.
  - destruct (@calculate_mas_invalid_period (mkSelf [] [1; 2]) [] 5) as [_ H].
    + right; vm_compute; reflexivity.
    + destruct H as (simple_ma & exponential_ma & Hrun & _ & Hall);
        [discriminate | discriminate |].
      exists simple_ma, exponential_ma. split; [exact Hrun|].
      apply Hall. lia.
Defined.

(** C9.  [__init__] does not use its argument: the new instance holds an
    empty price series (and an empty mapping).  On it, for every [prices]
    argument and every period [>= 1], [calculate_mas] raises nothing and
    returns a simple average equal to 0 and the one-element exponential
    series whose element equals 0. *)
Theorem fresh_instance_mas
    (A : Type) (performance_calculations : A) (xs : list Q) (period : Z) :
  (1 <= period)%Z ->
  __init__ performance_calculations = mkSelf [] [] /\
  exists simple_ma first,
    calculate_mas xs period (__init__ performance_calculations)
    = (Return (simple_ma, [first]), __init__ performance_calculations) /\
    simple_ma == 0 /\ first == 0.
Proof.
  intros Hp. split; [reflexivity|].
  pose proof (@calculate_mas_run xs period (__init__ performance_calculations)
                ltac:(lia) ltac:(lia)) as Hrun.
  cbv zeta in Hrun.
  change (slice_to (prices (__init__ performance_calculations)) period)
    with (@slice_to Q [] period) in Hrun.
  assert (Hw : @slice_to Q [] period = []) by (unfold slice_to; apply firstn_nil).
  rewrite Hw in Hrun. simpl ema_steps in Hrun.
  eexists. eexists. split; [exact Hrun|].
  assert (Hz : sum [] / inject_Z period == 0).
  { unfold sum; simpl fold_left. unfold Qdiv. apply Qmult_0_l. }
  split; [exact Hz|]. rewrite Hz. apply Qmult_0_l.
Qed.

Lemma fresh_instance_mas_witness :
  __init__ "anything"%string = mkSelf [] [] /\
  exists simple_ma first,
    calculate_mas [3; 4; 5] 3 (__init__ "anything"%string)
    = (Return (simple_ma, [first]), __init__ "anything"%string) /\
    simple_ma == 0 /\ first == 0.
Proof.
  apply (@fresh_instance_mas string "anything"%string [3; 4; 5] 3). lia.
Defined.

(** ** Maximum drawdown *)

Lemma peak_update (peak value : Q) :
  (if Qgtb value peak then value else peak) = Qmax peak value.
Proof.
  unfold Qmax, GenericMinMax.gmax.
  destruct (Qgtb value peak) eqn:E.
  - apply Qgtb_true in E. now rewrite (proj1 (Qlt_alt peak value) E).
  - apply Qgtb_false in E. destruct (peak ?= value) eqn:C; try reflexivity.
    exfalso. exact (Qlt_not_le _ _ (proj2 (Qlt_alt peak value) C) E).
Qed.

Lemma drawdown_step_run (peak md value : Q) self :
  0 < peak ->
  let peak' := Qmax peak value in
  let drawdown := (peak' - value) / peak' in
  0 < peak' /\
  drawdown_step (peak, md) value self
  = (Return (peak', if Qgtb drawdown md then drawdown else md), self).
Proof.
  intros Hpeak. cbv zeta.
  assert (Hpos : 0 < Qmax peak value).
  { eapply Qlt_le_trans; [exact Hpeak | apply Q.le_max_l]. }
  split; [exact Hpos|].
  unfold drawdown_step. cbn [fst snd]. rewrite peak_update.
  erewrite bind_return; [reflexivity|].
  apply truediv_ok. intros E. rewrite E in Hpos. exact (Qlt_irrefl 0 Hpos).
Qed.

(** The loop of [calculate_max_drawdown], from any positive peak and any
    running maximum: it ends, the last element of the state bounds every
    drawdown met on the way and is the initial maximum or one of them. *)
Lemma drawdown_loop (rest : list Q) : forall (peak md : Q) self,
  0 < peak ->
  exists md',
    for_each drawdown_step rest (peak, md) self
    = (Return (fold_left Qmax rest peak, md'), self) /\
    md <= md' /\
    (forall j, (j < List.length rest)%nat ->
       (fold_left Qmax (firstn (S j) rest) peak - nth j rest 0)
         / fold_left Qmax (firstn (S j) rest) peak <= md') /\
    (md' = md \/
     exists j, (j < List.length rest)%nat /\
       md' = (fold_left Qmax (firstn (S j) rest) peak - nth j rest 0)
               / fold_left Qmax (firstn (S j) rest) peak).
Proof.
  induction rest as [|v rest IH]; intros peak md self Hpeak.
  - exists md. split; [reflexivity|]. split; [apply Qle_refl|].
    split; [simpl; intros; lia | now left].
  - destruct (@drawdown_step_run peak md v self Hpeak) as [Hpos Hstep].
    cbv zeta in Hstep.
    set (dd := (Qmax peak v - v) / Qmax peak v) in *.
    set (md1 := if Qgtb dd md then dd else md) in *.
    destruct (IH (Qmax peak v) md1 self Hpos) as (md' & Hrun & Hle & Hbound & Hatt).
    assert (Hmd : md <= md1 /\ dd <= md1 /\ (md1 = md \/ md1 = dd)).
    { unfold md1. destruct (Qgtb dd md) eqn:E.
      - apply Qgtb_true in E. repeat split; [now apply Qlt_le_weak | apply Qle_refl | now right].
      - apply Qgtb_false in E. repeat split; [apply Qle_refl | exact E | now left]. }
    destruct Hmd as (Hmd & Hdd & Hcase).
    exists md'. split.
    { cbn [for_each]. erewrite bind_return by exact Hstep. exact Hrun. }
    split; [eapply Qle_trans; eassumption|]. split.
    + intros [|j] Hj.
      * cbn [firstn fold_left nth]. fold dd. eapply Qle_trans; eassumption.
      * cbn [firstn fold_left nth]. apply Hbound. simpl in Hj. lia.
    + destruct Hatt as [-> | (j & Hj & ->)].
      * destruct Hcase as [-> | ->]; [now left|].
        right. exists O. split; [simpl; lia | reflexivity].
      * right. exists (S j). split; [simpl; lia | reflexivity].
Qed.

(** On a non-decreasing stretch that starts at or above the peak, the
    running maximum stays at zero. *)
Lemma drawdown_loop_sorted (rest : list Q) : forall (peak md : Q) self st,
  0 < peak -> md == 0 ->
  Forall (Qle peak) rest -> StronglySorted Qle rest ->
  for_each drawdown_step rest (peak, md) self = (Return st, self) ->
  snd st == 0.
Proof.
  induction rest as [|v rest IH]; intros peak md self st Hpeak Hmd Hall Hsorted Hrun.
  - simpl in Hrun. injection Hrun as <-. exact Hmd.
  - destruct (@drawdown_step_run peak md v self Hpeak) as [Hpos Hstep].
    cbv zeta in Hstep. cbn [for_each] in Hrun.
    erewrite bind_return in Hrun by exact Hstep.
    inversion Hall as [|? ? Hv Hall']; subst.
    inversion Hsorted as [|? ? Hsorted' Hrest]; subst.
    assert (Hmax : Qmax peak v == v) by (apply Q.max_r; exact Hv).
    assert (Hdd : (Qmax peak v - v) / Qmax peak v == 0).
    { rewrite Hmax. unfold Qdiv, Qminus. rewrite Qplus_opp_r. apply Qmult_0_l. }
    eapply IH; [exact Hpos | | | exact Hsorted' | exact Hrun].
    + destruct (Qgtb _ md); assumption.
    + eapply Forall_impl; [|exact Hrest].
      intros x Hx. rewrite Hmax. exact Hx.
Qed.

Lemma Qle_transitive : Relations_1.Transitive Qle.
Proof. intros x y z. apply Qle_trans. Qed.

(** C4.  On a non-empty sequence of positive values,
    [calculate_max_drawdown] returns the greatest of the drawdowns
    [(running_peak - value) / running_peak] over all positions, the
    running peak starting at the first value and updated left to right.
    The result is non-negative, it is zero on every non-decreasing
    sequence, and it is [1/2] on [[100; 50]]. *)
Theorem calculate_max_drawdown_is_maximum
    (self : PerformanceCalculator) (portfolio_values : list Q) :
  portfolio_values <> [] ->
  Forall (fun value => 0 < value) portfolio_values ->
  (exists max_drawdown,
     calculate_max_drawdown portfolio_values self = (Return max_drawdown, self) /\
     (forall i, (i < List.length portfolio_values)%nat ->
        drawdown_at portfolio_values i <= max_drawdown) /\
     (exists i, (i < List.length portfolio_values)%nat /\
        max_drawdown == drawdown_at portfolio_values i) /\
     0 <= max_drawdown /\
     (Sorted Qle portfolio_values -> max_drawdown == 0)) /\
  (exists half,
     calculate_max_drawdown [100; 50] self = (Return half, self) /\
     half == 1 # 2).
Proof.
  intros Hne Hpos. split.
  - destruct portfolio_values as [|first rest]; [contradiction|].
    inversion Hpos as [|? ? Hfirst _]; subst.
    destruct (@drawdown_loop (first :: rest) first 0 self Hfirst)
      as (md' & Hrun & Hle & Hbound & Hatt).
    assert (Hcall : calculate_max_drawdown (first :: rest) self = (Return md', self)).
    { unfold calculate_max_drawdown.
      erewrite bind_return by reflexivity.
      erewrite bind_return by exact Hrun. reflexivity. }
    exists md'. split; [exact Hcall|].
    split; [exact Hbound|]. split; [|split; [exact Hle|]].
    + destruct Hatt as [-> | (j & Hj & ->)].
      * exists O. split; [simpl; lia|].
        unfold drawdown_at, running_peak. cbn [firstn fold_left nth].
        assert (Hmax : Qmax first first == first) by (apply Q.max_l, Qle_refl).
        rewrite Hmax. unfold Qdiv, Qminus. rewrite Qplus_opp_r.
        symmetry. apply Qmult_0_l.
      * exists j. split; [exact Hj | reflexivity].
    + intros Hsorted.
      apply (Sorted_StronglySorted Qle_transitive) in Hsorted.
      inversion Hsorted as [|? ? Hsorted' Hrest]; subst.
      apply (@drawdown_loop_sorted (first :: rest) first 0 self _ Hfirst
               (Qeq_refl 0)) in Hrun; [exact Hrun | |].
      * constructor; [apply Qle_refl | exact Hrest].
      * exact Hsorted.
  - eexists. split; [vm_compute; reflexivity | vm_compute; reflexivity].
Qed.

Lemma calculate_max_drawdown_is_maximum_witness :
  exists max_drawdown,
    calculate_max_drawdown [4; 8; 6; 10; 5] (mkSelf [] [])
    = (Return max_drawdown, mkSelf [] []) /\
    (forall i, (i < 5)%nat -> drawdown_at [4; 8; 6; 10; 5] i <= max_drawdown) /\
    0 <= max_drawdown.
Proof.
  destruct (@calculate_max_drawdown_is_maximum (mkSelf [] []) [4; 8; 6; 10; 5])
    as [(md & Hrun & Hbound & _ & Hnonneg & _) _].
  - discriminate.
  - repeat constructor.
  - exists md. split; [exact Hrun|]. split; [exact Hbound | exact Hnonneg].
Defined.

(** ** Relative strength index *)

Lemma gain_of_code (delta : Q) :
  (if Qgtb delta 0 then delta else 0) = gain_of delta.
Proof.
  unfold gain_of. destruct (Qgtb delta 0) eqn:E, (Qlt_le_dec 0 delta) as [H|H];
    try reflexivity; exfalso.
  - apply Qgtb_true in E. exact (Qlt_not_le _ _ E H).
  - apply Qgtb_false in E. exact (Qlt_not_le _ _ H E).
Qed.

Lemma loss_of_code (delta : Q) :
  (if Qltb delta 0 then - delta else 0) = loss_of delta.
Proof.
  unfold loss_of. destruct (Qltb delta 0) eqn:E, (Qlt_le_dec delta 0) as [H|H];
    try reflexivity; exfalso.
  - apply Qltb_true in E. exact (Qlt_not_le _ _ E H).
  - apply Qltb_false in E. exact (Qlt_not_le _ _ H E).
Qed.

Lemma gain_of_nonneg (delta : Q) : 0 <= gain_of delta.
Proof.
  unfold gain_of. destruct (Qlt_le_dec 0 delta); [now apply Qlt_le_weak | apply Qle_refl].
Qed.

Lemma loss_of_nonneg (delta : Q) : 0 <= loss_of delta.
Proof.
  unfold loss_of. destruct (Qlt_le_dec delta 0) as [H|H]; [|apply Qle_refl].
  apply Qlt_le_weak in H. apply Qopp_le_compat in H. exact H.
Qed.

Lemma fold_right_nonneg (f : Q -> Q) (l : list Q) :
  (forall x, 0 <= f x) -> 0 <= fold_right Qplus 0 (map f l).
Proof.
  intros Hf. induction l as [|x l IH]; simpl; [apply Qle_refl|].
  replace 0 with (0 + 0) by reflexivity. apply Qplus_le_compat; [apply Hf | exact IH].
Qed.

Lemma price_deltas_length (ps : list Q) :
  List.length (price_deltas ps) = pred (List.length ps).
Proof.
  induction ps as [|x [|y rest] IH]; try reflexivity.
  change (price_deltas (x :: y :: rest)) with ((y - x) :: price_deltas (y :: rest)).
  cbn [List.length pred] in *. now rewrite IH.
Qed.

Lemma getitem_nth (l : list Q) (n : nat) (x : Q) self :
  nth_error l n = Some x -> getitem l (Z.of_nat n) self = (Return x, self).
Proof.
  intros H. unfold getitem. cbv zeta.
  destruct (Z.of_nat n <? 0)%Z eqn:E; [apply Z.ltb_lt in E; lia|].
  rewrite E, Nat2Z.id, H. reflexivity.
Qed.

Lemma skipn_cons_nth {A} (l : list A) : forall n x tl,
  skipn n l = x :: tl -> nth_error l n = Some x /\ skipn (S n) l = tl.
Proof.
  induction l as [|a l IH]; intros n x tl H.
  - rewrite skipn_nil in H. discriminate.
  - destruct n as [|n]; simpl in H.
    + injection H as -> ->. split; reflexivity.
    + apply IH in H. exact H.
Qed.

(** The first comprehension of [calculate_rsi], on a consistent instance:
    the indices from position [s + 1] on yield the differences of the
    series from position [s] on. *)
Lemma deltas_comprehension (self : PerformanceCalculator) : forall m s,
  (s + m + 1 = List.length (prices self))%nat ->
  comprehension
    (fun i => a <- self_prices_at i ;; b <- self_prices_at (i - 1) ;; ret (a - b))
    (map (fun k => (1 + Z.of_nat k)%Z) (seq s m)) self
  = (Return (price_deltas (skipn s (prices self))), self).
Proof.
  induction m as [|m IH]; intros s Hlen.
  - simpl. destruct (skipn s (prices self)) as [|x [|y tl]] eqn:E; try reflexivity.
    exfalso. apply (f_equal (@List.length Q)) in E.
    rewrite length_skipn in E. simpl in E. lia.
  - destruct (skipn s (prices self)) as [|x [|y tl]] eqn:E.
    + exfalso. apply (f_equal (@List.length Q)) in E.
      rewrite length_skipn in E. simpl in E. lia.
    + exfalso. apply (f_equal (@List.length Q)) in E.
      rewrite length_skipn in E. simpl in E. lia.
    + destruct (skipn_cons_nth _ _ E) as [Hx E'].
      destruct (skipn_cons_nth _ _ E') as [Hy _].
      cbn [seq map comprehension].
      erewrite bind_return.
      2:{ erewrite bind_return.
          2:{ unfold self_prices_at. erewrite bind_return by reflexivity.
              replace (1 + Z.of_nat s)%Z with (Z.of_nat (S s)) by lia.
              apply getitem_nth. exact Hy. }
          erewrite bind_return.
          2:{ unfold self_prices_at. erewrite bind_return by reflexivity.
              replace (1 + Z.of_nat s - 1)%Z with (Z.of_nat s) by lia.
              apply getitem_nth. exact Hx. }
          reflexivity. }
      erewrite bind_return by (apply IH; lia).
      rewrite E'. reflexivity.
Qed.

Lemma deltas_of_held (self : PerformanceCalculator) :
  comprehension
    (fun i => a <- self_prices_at i ;; b <- self_prices_at (i - 1) ;; ret (a - b))
    (range 1 (len (prices self))) self
  = (Return (price_deltas (prices self)), self).
Proof.
  unfold range, len.
  replace (Z.to_nat (Z.of_nat (List.length (prices self)) - 1))
    with (pred (List.length (prices self))) by lia.
  destruct (prices self) as [|x rest] eqn:E; [reflexivity|].
  rewrite <- E.
  apply (deltas_comprehension self (pred (List.length (prices self))) 0).
  rewrite E. cbn [List.length]. lia.
Qed.

Lemma Qdiv_nonneg (a b : Q) : 0 <= a -> 0 < b -> 0 <= a / b.
Proof.
  intros Ha Hb. apply Qle_shift_div_l; [exact Hb|]. now rewrite Qmult_0_l.
Qed.

Lemma mean_of_sum (f : Q -> Q) (l : list Q) :
  sum (map f l) / inject_Z (len (map f l)) == arithmetic_mean (map f l).
Proof. unfold arithmetic_mean, len. now rewrite sum_fold_right. Qed.

Lemma mean_nonneg (f : Q -> Q) (l : list Q) :
  (forall x, 0 <= f x) -> l <> [] -> 0 <= arithmetic_mean (map f l).
Proof.
  intros Hf Hl. unfold arithmetic_mean. apply Qdiv_nonneg.
  - now apply fold_right_nonneg.
  - rewrite length_map. destruct l; [contradiction|].
    unfold Qlt. simpl. lia.
Qed.

(** [calculate_rsi] on an instance that holds the series it is given, of
    at least two prices: both averages are taken without failure, what
    remains are the two last divisions. *)
Lemma calculate_rsi_run (self : PerformanceCalculator) (period : Z) :
  (2 <= List.length (prices self))%nat ->
  let deltas := price_deltas (prices self) in
  let gains := map gain_of deltas in
  let losses := map loss_of deltas in
  calculate_rsi (prices self) period self
  = (rs <- truediv (sum gains / inject_Z (len gains))
                   (sum losses / inject_Z (len losses)) ;;
     quotient <- truediv 100 (1 + rs) ;;
     ret (100 - quotient)) self.
Proof.
  intros Hlen. cbv zeta. unfold calculate_rsi.
  erewrite bind_return by apply deltas_of_held.
  rewrite (map_ext _ _ gain_of_code), (map_ext _ _ loss_of_code).
  assert (Hn : ~ inject_Z (Z.of_nat (List.length (price_deltas (prices self)))) == 0).
  { apply inject_Z_nonzero. rewrite price_deltas_length. lia. }
  erewrite bind_return
    by (apply truediv_ok; unfold len; rewrite length_map; exact Hn).
  erewrite bind_return
    by (apply truediv_ok; unfold len; rewrite length_map; exact Hn).
  reflexivity.
Qed.

(** C5.  On an instance that holds the series it is given, of at least
    two prices, [calculate_rsi] takes the differences of the whole series
    and averages gains and losses over all of them, whatever the period.
    When the average loss is not zero it returns
    [100 - 100 / (1 + average_gain / average_loss)], a value between 0
    and 100; when the average loss is zero the division raises
    [ZeroDivisionError]. *)
Theorem calculate_rsi_all_deltas
    (self : PerformanceCalculator) (xs : list Q) (period : Z) :
  prices self = xs ->
  (2 <= List.length xs)%nat ->
  let deltas := price_deltas xs in
  let average_gain := arithmetic_mean (map gain_of deltas) in
  let average_loss := arithmetic_mean (map loss_of deltas) in
  (~ average_loss == 0 ->
   exists rsi,
     calculate_rsi xs period self = (Return rsi, self) /\
     rsi == 100 - 100 / (1 + average_gain / average_loss) /\
     0 <= rsi <= 100) /\
  (average_loss == 0 ->
   calculate_rsi xs period self = (Raise ZeroDivisionError, self)).
Proof.
  intros <- Hlen. cbv zeta.
  rewrite (calculate_rsi_run self period Hlen).
  set (deltas := price_deltas (prices self)).
  assert (Hne : deltas <> []).
  { intros E. apply (f_equal (@List.length Q)) in E.
    unfold deltas in E. rewrite price_deltas_length in E. simpl in E. lia. }
  pose proof (mean_of_sum gain_of deltas) as Hgain.
  pose proof (mean_of_sum loss_of deltas) as Hloss.
  pose proof (mean_nonneg gain_of gain_of_nonneg Hne) as Hg0.
  pose proof (mean_nonneg loss_of loss_of_nonneg Hne) as Hl0.
  set (average_gain := arithmetic_mean (map gain_of deltas)) in *.
  set (average_loss := arithmetic_mean (map loss_of deltas)) in *.
  set (ag := sum (map gain_of deltas) / inject_Z (len (map gain_of deltas))) in *.
  set (al := sum (map loss_of deltas) / inject_Z (len (map loss_of deltas))) in *.
  split.
  - intros Hnz.
    assert (Hpos : 0 < average_loss).
    { apply Qle_lt_or_eq in Hl0. destruct Hl0 as [H|H]; [exact H|].
      exfalso. apply Hnz. now symmetry. }
    assert (Hrs : 0 <= ag / al).
    { rewrite Hgain, Hloss. now apply Qdiv_nonneg. }
    assert (Hden : 0 < 1 + ag / al).
    { apply Qlt_le_trans with (y := 1); [reflexivity|].
      rewrite <- (Qplus_0_r 1) at 1. apply Qplus_le_compat; [apply Qle_refl | exact Hrs]. }
    erewrite bind_return by (apply truediv_ok; rewrite Hloss; exact Hnz).
    erewrite bind_return.
    2:{ apply truediv_ok. intros E. rewrite E in Hden. exact (Qlt_irrefl 0 Hden). }
    eexists. split; [reflexivity|]. split.
    + now rewrite Hgain, Hloss.
    + assert (Hq0 : 0 <= 100 / (1 + ag / al)).
      { apply Qdiv_nonneg; [discriminate | exact Hden]. }
      assert (Hq1 : 100 / (1 + ag / al) <= 100).
      { apply Qle_shift_div_r; [exact Hden|].
        revert Hrs. generalize (ag / al). intros rs Hrs. lra. }
      revert Hq0 Hq1. generalize (100 / (1 + ag / al)). intros quotient Hq0 Hq1.
      split; lra.
  - intros Hz.
    erewrite bind_raise; [reflexivity|].
    apply truediv_zero. rewrite Hloss. exact Hz.
Qed.

Lemma calculate_rsi_all_deltas_witness :
  (exists rsi,
     calculate_rsi [1; 3; 2; 4] 14 (mkSelf [] [1; 3; 2; 4])
     = (Return rsi, mkSelf [] [1; 3; 2; 4]) /\
     0 <= rsi <= 100) /\
  calculate_rsi [1; 2; 3] 14 (mkSelf [] [1; 2; 3])
  = (Raise ZeroDivisionError, mkSelf [] [1; 2; 3]).
Proof.
  split.
  - destruct (@calculate_rsi_all_deltas (mkSelf [] [1; 3; 2; 4]) [1; 3; 2; 4] 14)
      as [H _]; [reflexivity | simpl; lia |].
    destruct H as (rsi & Hrun & _ & Hbound); [vm_compute; discriminate|].
    exists rsi. split; [exact Hrun | exact Hbound].
  - apply (@calculate_rsi_all_deltas (mkSelf [] [1; 2; 3]) [1; 2; 3] 14);
      [reflexivity | simpl; lia | vm_compute; reflexivity].
Defined.

(** ** Bollinger bands *)

(** C6.  [calculate_bollinger_bands] takes its average from
    [calculate_mas], which reads the held series and not the [prices] it
    is passed.  On a new instance and twenty prices all equal to 5, with
    period 20 and 2 deviations, the average returned is 0, not the mean 5
    of the prices, and the deviation is taken around 0: the radicand is
    25, so the bands are [0 + 2 * pow_half 25] and [0 - 2 * pow_half 25]
    and do not meet at the average.  On an instance that holds the same
    twenty prices the average is 5 and the radicand 0. *)
Theorem bollinger_bands_constant_series (pow_half : Q -> Q) :
  (exists radicand sma,
     calculate_bollinger_bands pow_half (repeat 5 20) 20 2 (__init__ tt)
     = (Return (sma + 2 * pow_half radicand, sma - 2 * pow_half radicand, sma),
        __init__ tt) /\
     radicand == 25 /\ sma == 0 /\
     ~ sma == arithmetic_mean (repeat 5 20)) /\
  (exists radicand sma,
     calculate_bollinger_bands pow_half (repeat 5 20) 20 2 (mkSelf [] (repeat 5 20))
     = (Return (sma + 2 * pow_half radicand, sma - 2 * pow_half radicand, sma),
        mkSelf [] (repeat 5 20)) /\
     radicand == 0 /\ sma == 5 /\
     sma == arithmetic_mean (repeat 5 20)).
Proof.
  split.
  - exists (sum (map (fun price => (price - sum [] / inject_Z 20) ^ 2)
                     (slice_from (repeat 5 20) (- (20))))
            / inject_Z 20),
           (sum [] / inject_Z 20).
    split; [vm_compute; reflexivity|].
    split; [vm_compute; reflexivity|].
    split; [vm_compute; reflexivity|].
    vm_compute. discriminate.
  - exists (sum (map (fun price => (price - sum (repeat 5 20) / inject_Z 20) ^ 2)
                     (slice_from (repeat 5 20) (- (20))))
            / inject_Z 20),
           (sum (repeat 5 20) / inject_Z 20).
    split.
    { unfold calculate_bollinger_bands.
      erewrite bind_return by (apply calculate_mas_run; discriminate).
      cbv beta zeta. cbn [fst prices].
      replace (slice_to (repeat 5 20) 20) with (repeat 5 20)
        by (vm_compute; reflexivity).
      erewrite bind_return by (apply truediv_ok; discriminate).
      erewrite bind_return by (vm_compute; reflexivity).
      reflexivity. }
    split; [vm_compute; reflexivity|].
    split; vm_compute; reflexivity.
Qed.

(** ** The two reports *)

Lemma find_set_column_other (cols : list (string * list Q))
    (name other : string) (values : list Q) :
  String.eqb name other = false ->
  find (fun col => String.eqb (fst col) other) cols = None ->
  find (fun col => String.eqb (fst col) other) (set_column cols name values)
  = None.
Proof.
  intros Hdiff. induction cols as [|[k v] cols IH]; intros Hfind; simpl in *.
  - now rewrite Hdiff.
  - destruct (String.eqb k other) eqn:Ek; [discriminate|].
    destruct (String.eqb k name); simpl; rewrite Ek; [exact Hfind | now apply IH].
Qed.

Lemma pd_DataFrame_columns (data : dict (list Q)) self df self' :
  pd_DataFrame data self = (Return df, self') -> columns df = data /\ self' = self.
Proof.
  unfold pd_DataFrame. destruct data as [|[k first] rest].
  - intros H. injection H as <- <-. split; reflexivity.
  - destruct (forallb _ rest); intros H; [|discriminate].
    injection H as <- <-. split; reflexivity.
Qed.

(** The energy report stores the row sums under the name
    ["Total Energy Consumption (kWh"], without the closing bracket, and
    reads them back under the full name: unless the ledger itself has a
    category of the full name, the lookup raises [KeyError]. *)
Lemma energy_report_key_error (energy_data : dict (list Q)) self df :
  pd_DataFrame energy_data self = (Return df, self) ->
  find (fun col => String.eqb (fst col) "Total Energy Consumption (kWh)")
       energy_data = None ->
  calculate_energy_consumption energy_data self
  = (Raise (KeyError "Total Energy Consumption (kWh)"), self).
Proof.
  intros Hdf Hfind. unfold calculate_energy_consumption.
  erewrite bind_return by exact Hdf.
  destruct (pd_DataFrame_columns _ _ Hdf) as [Hcols _].
  erewrite bind_raise; [reflexivity|].
  unfold df_getitem, df_setitem. cbn [columns].
  rewrite find_set_column_other; [reflexivity | reflexivity |].
  rewrite Hcols. exact Hfind.
Qed.

(** C7.  On the ledger of two categories and two periods
    [{"Electricity": [1, 2], "Gas": [3, 4]}] the energy report returns no
    table: it raises [KeyError] for the total column it never stored
    under that name. *)
Theorem energy_report_two_by_two (self : PerformanceCalculator) :
  calculate_energy_consumption
    [("Electricity"%string, [1; 2]); ("Gas"%string, [3; 4])] self
  = (Raise (KeyError "Total Energy Consumption (kWh)"), self).
Proof.
  eapply energy_report_key_error; reflexivity.
Qed.

(** The water report reads the global name [df] once the frame is built:
    it returns no table on any ledger. *)
Lemma water_report_raises (water_usage_data : dict (list Q)) self :
  calculate_water_usage water_usage_data self = (Raise ValueError, self) \/
  calculate_water_usage water_usage_data self = (Raise (NameError "df"), self).
Proof.
  unfold calculate_water_usage.
  destruct (pd_DataFrame water_usage_data self) as [[df|e] self'] eqn:E.
  - right. destruct (pd_DataFrame_columns _ _ E) as [_ ->].
    erewrite bind_return by exact E. reflexivity.
  - left. unfold pd_DataFrame in E.
    destruct water_usage_data as [|[k first] rest]; [discriminate|].
    destruct (forallb _ rest) eqn:F; [discriminate|].
    injection E as <- <-.
    unfold bind, pd_DataFrame. rewrite F. reflexivity.
Qed.

(** C8.  The water report does not produce the structure of the energy
    report: on every ledger it raises ([NameError] for [df], or
    [ValueError] from the frame constructor) and returns no table.  On
    [{"Tap": [1, 2], "Well": [3, 4]}] the water report raises
    [NameError] and the energy report raises [KeyError]. *)
Theorem water_report_never_returns
    (self : PerformanceCalculator) (water_usage_data : dict (list Q)) :
  (forall df, result_of (calculate_water_usage water_usage_data) self <> Return df) /\
  calculate_water_usage [("Tap"%string, [1; 2]); ("Well"%string, [3; 4])] self
  = (Raise (NameError "df"), self) /\
  calculate_energy_consumption [("Tap"%string, [1; 2]); ("Well"%string, [3; 4])] self
  = (Raise (KeyError "Total Energy Consumption (kWh)"), self).
Proof.
  split; [|split].
  - intros df. unfold result_of.
    destruct (water_report_raises water_usage_data self) as [-> | ->]; discriminate.
  - reflexivity.
  - eapply energy_report_key_error; reflexivity.
Qed.

(** ** The instance is never written *)

Lemma preserves_ret {A} (a : A) : preserves_state (ret a).
Proof. intros self. reflexivity. Qed.

Lemma preserves_raise {A} (e : exn) : preserves_state (@raise A e).
Proof. intros self. reflexivity. Qed.

Lemma preserves_bind {A B} (m : M A) (k : A -> M B) :
  preserves_state m -> (forall a, preserves_state (k a)) ->
  preserves_state (bind m k).
Proof.
  intros Hm Hk self. specialize (Hm self).
  unfold state_after, bind in *.
  destruct (m self) as [[a|e] self']; simpl in Hm; subst self'.
  - apply Hk.
  - reflexivity.
Qed.

Lemma preserves_self_prices : preserves_state self_prices.
Proof. intros self. reflexivity. Qed.

Lemma preserves_truediv (a b : Q) : preserves_state (truediv a b).
Proof. intros self. unfold state_after, truediv. now destruct (Qeq_bool b 0). Qed.

Lemma preserves_getitem (l : list Q) (i : Z) : preserves_state (getitem l i).
Proof.
  intros self. unfold state_after, getitem. cbv zeta.
  destruct (_ <? 0)%Z; [reflexivity|]. now destruct (nth_error l _).
Qed.

Lemma preserves_for_each {A S} (body : S -> A -> M S) (l : list A) :
  (forall acc x, preserves_state (body acc x)) ->
  forall acc, preserves_state (for_each body l acc).
Proof.
  intros Hbody. induction l as [|x l IH]; intros acc; simpl.
  - apply preserves_ret.
  - apply preserves_bind; [apply Hbody | exact IH].
Qed.

Lemma preserves_comprehension {A B} (f : A -> M B) (l : list A) :
  (forall x, preserves_state (f x)) -> preserves_state (comprehension f l).
Proof.
  intros Hf. induction l as [|x l IH]; simpl.
  - apply preserves_ret.
  - apply preserves_bind; [apply Hf|]. intros y.
    apply preserves_bind; [exact IH|]. intros ys. apply preserves_ret.
Qed.

Lemma preserves_pd_DataFrame (data : dict (list Q)) :
  preserves_state (pd_DataFrame data).
Proof.
  intros self. unfold state_after, pd_DataFrame.
  destruct data as [|[k first] rest]; [reflexivity|]. now destruct (forallb _ rest).
Qed.

Lemma preserves_df_getitem (df : DataFrame) (name : string) :
  preserves_state (df_getitem df name).
Proof. intros self. unfold state_after, df_getitem. now destruct (find _ _). Qed.

Create HintDb frame.
#[local] Hint Resolve preserves_ret preserves_raise preserves_self_prices
  preserves_truediv preserves_getitem preserves_pd_DataFrame
  preserves_df_getitem : frame.

(** One step of a frame proof: split a sequence, enter a loop, or branch
    on a test. *)
Ltac frame_step :=
  match goal with
  | |- preserves_state (bind _ _) => apply preserves_bind; [|intros ?]
  | |- preserves_state (for_each _ _ _) => apply preserves_for_each; intros ? ?
  | |- preserves_state (comprehension _ _) => apply preserves_comprehension; intros ?
  | |- preserves_state (if ?b then _ else _) => destruct b
  | |- preserves_state _ => solve [auto with frame]
  end.

Ltac frame := repeat frame_step.

Lemma preserves_calculate_mas (xs : list Q) (period : Z) :
  preserves_state (calculate_mas xs period).
Proof. unfold calculate_mas. frame. Qed.

#[local] Hint Resolve preserves_calculate_mas : frame.

(** C10.  No method writes the instance: whatever method is called, with
    whatever arguments, and whether it returns or raises, the held price
    series and the [performance_calculations] mapping are afterwards what
    they were before. *)
Theorem methods_leave_instance_unchanged
    (pow_half : Q -> Q) (c : method_call) (self : PerformanceCalculator) :
  prices (state_after (invoke pow_half c) self) = prices self /\
  performance_calculations (state_after (invoke pow_half c) self)
  = performance_calculations self.
Proof.
  assert (H : preserves_state (invoke pow_half c)).
  { destruct c; unfold invoke, fmap;
      (apply preserves_bind; [|intros ?; apply preserves_ret]).
    - apply preserves_calculate_mas.
    - unfold calculate_rsi, self_prices_at. frame.
    - unfold calculate_bollinger_bands. frame.
    - unfold calculate_stop_loss. frame.
    - unfold calculate_take_profit. frame.
    - unfold calculate_position_size. frame.
    - unfold moving_average_crossover. frame.
    - unfold calculate_allocation_ratios. frame.
    - unfold rebalance_portfolio. frame.
    - unfold calculate_max_drawdown, drawdown_step. frame.
    - unfold calculate_risk_reward_ratio. frame.
    - unfold calculate_volatility. frame.
    - unfold calculate_lookback_period. frame.
    - unfold calculate_carbon_footprint. frame.
    - unfold calculate_energy_consumption. frame.
    - unfold calculate_water_usage, global_name. frame. }
  rewrite (H self). split; reflexivity.
Qed.

(* ================================================================== *)
(** * Further properties of the methods *)

(** ** Moving averages, continued *)




Lemma inject_Z_pos (z : Z) : (0 < z)%Z -> 0 < inject_Z z.
Proof. intros H. unfold Qlt. simpl. lia. Qed.







(** ** Moving-average crossover *)

(** [moving_average_crossover] once both averages are taken. *)
Lemma moving_average_crossover_run
    (xs : list Q) (short_period long_period : Z) self :
  short_period <> 0%Z -> short_period <> (-1)%Z ->
  long_period <> 0%Z -> long_period <> (-1)%Z ->
  let short_ma := sum (slice_to (prices self) short_period) / inject_Z short_period in
  let long_ma := sum (slice_to (prices self) long_period) / inject_Z long_period in
  moving_average_crossover xs short_period long_period self
  = (Return (if Qgtb short_ma long_ma then "Buy"%string
             else if Qltb short_ma long_ma then "Sell"%string
             else "Hold"%string), self).
Proof.
  intros Hs0 Hs1 Hl0 Hl1. cbv zeta. unfold moving_average_crossover.
  erewrite bind_return by reflexivity.
  erewrite bind_return by (apply calculate_mas_run; assumption).
  erewrite bind_return by reflexivity.
  erewrite bind_return by (apply calculate_mas_run; assumption).
  cbn [fst].
  destruct (Qgtb _ _); [reflexivity|]. destruct (Qltb _ _); reflexivity.
Qed.



(** X4.  On a new instance [moving_average_crossover] answers "Hold" for
    every [prices] it is given and every two periods from 1 on: both
    averages are taken on the empty held series. *)
Theorem moving_average_crossover_new_instance
    (A : Type) (performance_calculations : A)
    (xs : list Q) (short_period long_period : Z) :
  (1 <= short_period)%Z -> (1 <= long_period)%Z ->
  moving_average_crossover xs short_period long_period
                           (__init__ performance_calculations)
  = (Return "Hold"%string, __init__ performance_calculations).
Proof.
  intros Hs Hl.
  rewrite (@moving_average_crossover_run xs short_period long_period
             (__init__ performance_calculations)) by lia.
  change (prices (__init__ performance_calculations)) with (@nil Q).
  assert (Hw : forall p, @slice_to Q [] p = []) by (intros p; unfold slice_to; apply firstn_nil).
  rewrite !Hw.
  assert (Hz : forall p, sum [] / inject_Z p == 0).
  { intros p. unfold sum; simpl fold_left. unfold Qdiv. apply Qmult_0_l. }
  assert (H1 : Qgtb (sum [] / inject_Z short_period) (sum [] / inject_Z long_period) = false).
  { apply Qgtb_false. rewrite !Hz. apply Qle_refl. }
  assert (H2 : Qltb (sum [] / inject_Z short_period) (sum [] / inject_Z long_period) = false).
  { apply Qltb_false. rewrite !Hz. apply Qle_refl. }
  now rewrite H1, H2.
Qed.

Lemma moving_average_crossover_new_instance_witness :
  moving_average_crossover [1; 2; 3; 40; 50] 2 5 (__init__ tt)
  = (Return "Hold"%string, __init__ tt).
Proof.
  apply (@moving_average_crossover_new_instance unit tt [1; 2; 3; 40; 50] 2 5); lia.
Defined.

(** ** Relative strength index, continued *)

Lemma getitem_out_of_range (l : list Q) (n : nat) self :
  (List.length l <= n)%nat ->
  getitem l (Z.of_nat n) self = (Raise IndexError, self).
Proof.
  intros H. unfold getitem. cbv zeta.
  destruct (Z.of_nat n <? 0)%Z eqn:E; [apply Z.ltb_lt in E; lia|].
  rewrite E, Nat2Z.id. apply nth_error_None in H. now rewrite H.
Qed.

Lemma nth_error_in_range {A} (l : list A) (n : nat) :
  (n < List.length l)%nat -> exists x, nth_error l n = Some x.
Proof.
  intros H. destruct (nth_error l n) eqn:E; [eauto|].
  apply nth_error_None in E. lia.
Qed.

(** The first comprehension of [calculate_rsi] when the indices run past
    the end of the held series. *)
Lemma deltas_index_error (self : PerformanceCalculator) : forall m s,
  (1 <= m)%nat ->
  (List.length (prices self) <= s + m)%nat ->
  comprehension
    (fun i => a <- self_prices_at i ;; b <- self_prices_at (i - 1) ;; ret (a - b))
    (map (fun k => (1 + Z.of_nat k)%Z) (seq s m)) self
  = (Raise IndexError, self).
Proof.
  induction m as [|m IH]; intros s Hm Hlen; [lia|].
  cbn [seq map comprehension].
  replace (1 + Z.of_nat s)%Z with (Z.of_nat (S s)) by lia.
  destruct (Nat.le_gt_cases (List.length (prices self)) (S s)) as [Hout | Hin].
  - erewrite bind_raise; [reflexivity|].
    erewrite bind_raise; [reflexivity|].
    unfold self_prices_at. erewrite bind_return by reflexivity.
    now apply getitem_out_of_range.
  - destruct (@nth_error_in_range _ (prices self) (S s) Hin) as [y Hy].
    destruct (@nth_error_in_range _ (prices self) s ltac:(lia)) as [x Hx].
    erewrite bind_return.
    2:{ erewrite bind_return.
        2:{ unfold self_prices_at. erewrite bind_return by reflexivity.
            apply getitem_nth. exact Hy. }
        erewrite bind_return.
        2:{ unfold self_prices_at. erewrite bind_return by reflexivity.
            replace (Z.of_nat (S s) - 1)%Z with (Z.of_nat s) by lia.
            apply getitem_nth. exact Hx. }
        reflexivity. }
    erewrite bind_raise; [reflexivity|].
    apply IH; lia.
Qed.

(** X5.  [calculate_rsi] takes its indices from the [prices] it is given
    and its values from the held series.  Given fewer than two prices it
    raises [ZeroDivisionError] (the average of no gains); given two or
    more prices on an instance whose held series is shorter, it raises
    [IndexError]. *)
Theorem calculate_rsi_index_mismatch
    (self : PerformanceCalculator) (xs : list Q) (period : Z) :
  ((List.length xs <= 1)%nat ->
   calculate_rsi xs period self = (Raise ZeroDivisionError, self)) /\
  ((2 <= List.length xs)%nat ->
   (List.length (prices self) < List.length xs)%nat ->
   calculate_rsi xs period self = (Raise IndexError, self)).
Proof.
  split.
  - intros Hlen. unfold calculate_rsi, range, len.
    replace (Z.to_nat (Z.of_nat (List.length xs) - 1)) with O by lia.
    reflexivity.
  - intros Hlen Hshort. unfold calculate_rsi, range, len.
    erewrite bind_raise; [reflexivity|].
    apply deltas_index_error; lia.
Qed.

Lemma calculate_rsi_index_mismatch_witness :
  calculate_rsi [7] 14 (mkSelf [] [1; 2; 3])
  = (Raise ZeroDivisionError, mkSelf [] [1; 2; 3]) /\
  calculate_rsi [1; 2; 3; 4] 14 (mkSelf [] [1; 2; 3])
  = (Raise IndexError, mkSelf [] [1; 2; 3]).
Proof.
  split.
  - apply (@calculate_rsi_index_mismatch (mkSelf [] [1; 2; 3]) [7] 14).
    simpl; lia.
  - apply (@calculate_rsi_index_mismatch (mkSelf [] [1; 2; 3]) [1; 2; 3; 4] 14);
      simpl; lia.
Defined.

Lemma price_deltas_sorted (ps : list Q) :
  Sorted Qle ps -> Forall (Qle 0) (price_deltas ps).
Proof.
  induction ps as [|x [|y rest] IH]; intros Hs; try (constructor; fail).
  change (price_deltas (x :: y :: rest)) with ((y - x) :: price_deltas (y :: rest)).
  inversion Hs as [|? ? Hs' Hhd]; subst. inversion Hhd as [|? ? Hxy]; subst.
  constructor; [lra | now apply IH].
Qed.

Lemma losses_of_rising (deltas : list Q) :
  Forall (Qle 0) deltas -> fold_right Qplus 0 (map loss_of deltas) == 0.
Proof.
  induction 1 as [|d deltas Hd _ IH]; [reflexivity|].
  cbn [map fold_right]. rewrite IH. unfold loss_of.
  destruct (Qlt_le_dec d 0) as [H|H]; [|reflexivity].
  exfalso. exact (Qlt_not_le _ _ H Hd).
Qed.

(** X6.  On an instance that holds the series it is given, a series of at
    least two prices that never falls makes [calculate_rsi] raise
    [ZeroDivisionError]: there is no loss to divide by. *)
Theorem calculate_rsi_never_falling
    (self : PerformanceCalculator) (xs : list Q) (period : Z) :
  prices self = xs ->
  (2 <= List.length xs)%nat ->
  Sorted Qle xs ->
  calculate_rsi xs period self = (Raise ZeroDivisionError, self).
Proof.
  intros <- Hlen Hsorted.
  rewrite (calculate_rsi_run self period Hlen).
  erewrite bind_raise; [reflexivity|].
  apply truediv_zero.
  rewrite sum_fold_right, losses_of_rising by (now apply price_deltas_sorted).
  unfold Qdiv. apply Qmult_0_l.
Qed.

Lemma calculate_rsi_never_falling_witness :
  calculate_rsi [1; 2; 2; 5] 14 (mkSelf [] [1; 2; 2; 5])
  = (Raise ZeroDivisionError, mkSelf [] [1; 2; 2; 5]).
Proof.
  apply (@calculate_rsi_never_falling (mkSelf [] [1; 2; 2; 5]) [1; 2; 2; 5] 14).
  - reflexivity.
  - simpl; lia.
  - repeat constructor; discriminate.
Defined.

(** ** Bollinger bands, continued *)




(** ** Risk and position functions *)





(** ** Portfolio functions *)








(** ** Maximum drawdown, continued *)

(** X13.  [calculate_max_drawdown] raises [IndexError] on the empty
    sequence, and [ZeroDivisionError] on every sequence whose first value
    is zero. *)
Theorem calculate_max_drawdown_rejects
    (self : PerformanceCalculator) (first : Q) (rest : list Q) :
  calculate_max_drawdown [] self = (Raise IndexError, self) /\
  (first == 0 ->
   calculate_max_drawdown (first :: rest) self = (Raise ZeroDivisionError, self)).
Proof.
  split; [reflexivity|].
  intros Hz. unfold calculate_max_drawdown.
  erewrite bind_return by reflexivity.
  erewrite bind_raise; [reflexivity|].
  cbn [for_each]. erewrite bind_raise; [reflexivity|].
  unfold drawdown_step. cbn [fst snd].
  assert (Hsame : Qgtb first first = false) by (apply Qgtb_false, Qle_refl).
  rewrite Hsame.
  erewrite bind_raise; [reflexivity|]. now apply truediv_zero.
Qed.

Lemma calculate_max_drawdown_rejects_witness :
  calculate_max_drawdown [0; 5; 3] (mkSelf [] [])
  = (Raise ZeroDivisionError, mkSelf [] []).
Proof.
  apply (@calculate_max_drawdown_rejects (mkSelf [] []) 0 [5; 3]).
  reflexivity.
Defined.




(** ** Lookback window *)


(** X15.  For a period from 1 on, [calculate_lookback_period] returns the
    last [period] prices, all of them when there are fewer: its result is
    a suffix of [prices] of length [min(period, len(prices))]. *)
Theorem calculate_lookback_period_is_suffix
    (self : PerformanceCalculator) (xs : list Q) (period : Z) :
  (1 <= period)%Z ->
  exists window,
    calculate_lookback_period xs period self = (Return window, self) /\
    len window = Z.min period (len xs) /\
    exists before, xs = before ++ window.
Proof.
  intros Hp. unfold calculate_lookback_period, slice_from.
  assert (Hneg : (- period <? 0)%Z = true) by (apply Z.ltb_lt; lia).
  rewrite Hneg. eexists. split; [reflexivity|]. split.
  - unfold len. rewrite length_skipn. lia.
  - eexists. symmetry. apply firstn_skipn.
Qed.

Lemma calculate_lookback_period_is_suffix_witness :
  exists window,
    calculate_lookback_period [1; 2; 3; 4; 5] 2 (mkSelf [] [])
    = (Return window, mkSelf [] []) /\
    len window = Z.min 2 (len [1; 2; 3; 4; 5]) /\
    exists before, [1; 2; 3; 4; 5] = before ++ window.
Proof.
  apply (@calculate_lookback_period_is_suffix (mkSelf [] []) [1; 2; 3; 4; 5] 2).
  lia.
Defined.








(** ** Volatility *)


Lemma comprehension_raises {A B} (f : A -> M B) (e : exn) (l : list A) self :
  (forall x, In x l ->
     (exists y, f x self = (Return y, self)) \/ f x self = (Raise e, self)) ->
  (exists x, In x l /\ f x self = (Raise e, self)) ->
  comprehension f l self = (Raise e, self).
Proof.
  induction l as [|x l IH]; intros Hall (bad & Hin & Hbad); [contradiction|].
  cbn [comprehension].
  destruct (Hall x (or_introl eq_refl)) as [[y Hy] | Hx].
  - erewrite bind_return by exact Hy.
    erewrite bind_raise; [reflexivity|].
    apply IH; [intros z Hz; apply Hall; now right|].
    destruct Hin as [<- | Hin]; [rewrite Hy in Hbad; discriminate|].
    exists bad. split; assumption.
  - erewrite bind_raise; [reflexivity | exact Hx].
Qed.

Lemma in_range (a b i : Z) : In i (range a b) <-> (a <= i < b)%Z.
Proof.
  unfold range. rewrite in_map_iff. split.
  - intros (k & <- & Hk). apply in_seq in Hk. lia.
  - intros H. exists (Z.to_nat (i - a)). split; [lia|]. apply in_seq. lia.
Qed.

Lemma getitem_in_range (l : list Q) (i : Z) self :
  (0 <= i < len l)%Z -> getitem l i self = (Return (nth (Z.to_nat i) l 0), self).
Proof.
  intros H. rewrite <- (Z2Nat.id i) at 1 by lia.
  apply getitem_nth. apply nth_error_nth'. unfold len in H. lia.
Qed.

Lemma simple_return_run (xs : list Q) (i : Z) self :
  (1 <= i < len xs)%Z ->
  (~ nth (Z.to_nat (i - 1)) xs 0 == 0 ->
   simple_return xs i self
   = (Return (nth (Z.to_nat i) xs 0 / nth (Z.to_nat (i - 1)) xs 0 - 1), self)) /\
  (nth (Z.to_nat (i - 1)) xs 0 == 0 ->
   simple_return xs i self = (Raise ZeroDivisionError, self)).
Proof.
  intros Hi. unfold simple_return.
  erewrite bind_return by (apply getitem_in_range; lia).
  erewrite bind_return by (apply getitem_in_range; lia).
  split; intros H.
  - erewrite bind_return by (apply truediv_ok; exact H). reflexivity.
  - erewrite bind_raise; [reflexivity|]. now apply truediv_zero.
Qed.



(** X19.  When some price that has a successor is zero,
    [calculate_volatility] raises [ZeroDivisionError]. *)
Theorem calculate_volatility_zero_price
    (self : PerformanceCalculator) (xs : list Q) (period : Z) (k : nat) :
  (S k < List.length xs)%nat ->
  nth k xs 0 == 0 ->
  calculate_volatility xs period self = (Raise ZeroDivisionError, self).
Proof.
  intros Hk Hz. unfold calculate_volatility.
  change (fun i => a <- getitem xs i ;; b <- getitem xs (i - 1) ;;
                   q <- truediv a b ;; ret (q - 1))
    with (simple_return xs).
  erewrite bind_raise; [reflexivity|].
  apply comprehension_raises.
  - intros i Hi. apply in_range in Hi.
    destruct (@simple_return_run xs i self Hi) as [Hok Hbad].
    destruct (Qeq_dec (nth (Z.to_nat (i - 1)) xs 0) 0) as [E|E].
    + right. now apply Hbad.
    + left. eexists. now apply Hok.
  - exists (Z.of_nat (S k)). split.
    + apply in_range. unfold len. lia.
    + apply simple_return_run; [unfold len; lia|].
      replace (Z.to_nat (Z.of_nat (S k) - 1)) with k by lia. exact Hz.
Qed.

Lemma calculate_volatility_zero_price_witness :
  calculate_volatility [4; 0; 2] 5 (mkSelf [] [])
  = (Raise ZeroDivisionError, mkSelf [] []).
Proof.
  apply (@calculate_volatility_zero_price (mkSelf [] []) [4; 0; 2] 5 1).
  - simpl; lia.
  - reflexivity.
Defined.

(** ** The energy report, continued *)

(** X20.  On a ledger that has no category named
    ["Total Energy Consumption (kWh)"], [calculate_energy_consumption]
    returns no table: it raises [ValueError] when the categories differ
    in length (from the frame constructor), and otherwise [KeyError] for
    the total column. *)
Theorem energy_report_without_total_category
    (self : PerformanceCalculator) (energy_data : dict (list Q)) :
  find (fun col => String.eqb (fst col) "Total Energy Consumption (kWh)")
       energy_data = None ->
  (pd_DataFrame energy_data self = (Raise ValueError, self) /\
   calculate_energy_consumption energy_data self = (Raise ValueError, self)) \/
  ((exists df, pd_DataFrame energy_data self = (Return df, self)) /\
   calculate_energy_consumption energy_data self
   = (Raise (KeyError "Total Energy Consumption (kWh)"), self)).
Proof.
  intros Hfind.
  destruct (pd_DataFrame energy_data self) as [[df|e] self'] eqn:E.
  - right. destruct (pd_DataFrame_columns _ _ E) as [_ ->].
    split; [eauto|]. eapply energy_report_key_error; eassumption.
  - left. unfold pd_DataFrame in E.
    destruct energy_data as [|[k first] rest]; [discriminate|].
    destruct (forallb _ rest) eqn:F; [discriminate|].
    injection E as <- <-. split; [reflexivity|].
    unfold calculate_energy_consumption, bind, pd_DataFrame. rewrite F. reflexivity.
Qed.

Lemma energy_report_without_total_category_witness :
  calculate_energy_consumption
    [("Solar"%string, [1; 2; 3]); ("Wind"%string, [4; 5])] (mkSelf [] [])
  = (Raise ValueError, mkSelf [] []).
Proof.
  destruct (@energy_report_without_total_category (mkSelf [] [])
              [("Solar"%string, [1; 2; 3]); ("Wind"%string, [4; 5])])
    as [[_ H] | [[df Hdf] _]].
  - reflexivity.
  - exact H.
  - vm_compute in Hdf. discriminate.
Defined.

(** ** Moving averages and relative strength, last cases *)

Lemma slice_to_length {A} (l : list A) (period : Z) :
  (0 <= period)%Z -> len (slice_to l period) = Z.min period (len l).
Proof.
  intros Hp. unfold slice_to.
  destruct (period <? 0)%Z eqn:E; [apply Z.ltb_lt in E; lia|].
  unfold len. rewrite length_firstn. lia.
Qed.

(** X21.  For every period from 1 on, [calculate_mas] returns an
    exponential series of [min(period, len(self.prices)) + 1] elements: a
    held series shorter than the period shortens the result instead of
    failing. *)
Theorem calculate_mas_series_length
    (self : PerformanceCalculator) (xs : list Q) (period : Z) :
  (1 <= period)%Z ->
  exists simple_ma exponential_ma,
    calculate_mas xs period self = (Return (simple_ma, exponential_ma), self) /\
    len exponential_ma = (Z.min period (len (prices self)) + 1)%Z.
Proof.
  intros Hp.
  pose proof (@calculate_mas_run xs period self ltac:(lia) ltac:(lia)) as Hrun.
  cbv zeta in Hrun. eexists. eexists. split; [exact Hrun|].
  rewrite <- (@slice_to_length _ (prices self) period) by lia.
  unfold len. cbn [List.length]. rewrite ema_steps_length. lia.
Qed.

Lemma calculate_mas_series_length_witness :
  exists simple_ma exponential_ma,
    calculate_mas [] 5 (mkSelf [] [1; 2])
    = (Return (simple_ma, exponential_ma), mkSelf [] [1; 2]) /\
    len exponential_ma = (Z.min 5 (len [1; 2]) + 1)%Z.
Proof.
  apply (@calculate_mas_series_length (mkSelf [] [1; 2]) [] 5). lia.
Defined.

Lemma price_deltas_falling (ps : list Q) :
  Sorted (fun a b => b < a) ps -> Forall (fun d => d < 0) (price_deltas ps).
Proof.
  induction ps as [|x [|y rest] IH]; intros Hs; try (constructor; fail).
  change (price_deltas (x :: y :: rest)) with ((y - x) :: price_deltas (y :: rest)).
  inversion Hs as [|? ? Hs' Hhd]; subst. inversion Hhd as [|? ? Hxy]; subst.
  constructor; [lra | now apply IH].
Qed.

Lemma gains_of_falling (deltas : list Q) :
  Forall (fun d => d < 0) deltas -> fold_right Qplus 0 (map gain_of deltas) == 0.
Proof.
  induction 1 as [|d deltas Hd _ IH]; [reflexivity|].
  cbn [map fold_right]. rewrite IH. unfold gain_of.
  destruct (Qlt_le_dec 0 d) as [H|H]; [|reflexivity].
  exfalso. exact (Qlt_irrefl _ (Qlt_trans _ _ _ H Hd)).
Qed.

Lemma losses_of_falling (deltas : list Q) :
  Forall (fun d => d < 0) deltas -> deltas <> [] ->
  0 < fold_right Qplus 0 (map loss_of deltas).
Proof.
  induction 1 as [|d deltas Hd Hall IH]; intros Hne; [contradiction|].
  cbn [map fold_right].
  assert (Hl : 0 < loss_of d).
  { unfold loss_of. destruct (Qlt_le_dec d 0) as [H|H]; [lra|].
    exfalso. exact (Qlt_not_le _ _ Hd H). }
  pose proof (fold_right_nonneg loss_of deltas loss_of_nonneg) as Hrest.
  revert Hl Hrest. generalize (loss_of d), (fold_right Qplus 0 (map loss_of deltas)).
  intros a b Ha Hb. lra.
Qed.

(** X22.  On an instance that holds the series it is given, a series of
    at least two prices that falls at every step has a relative strength
    index equal to 0. *)
Theorem calculate_rsi_always_falling
    (self : PerformanceCalculator) (xs : list Q) (period : Z) :
  prices self = xs ->
  (2 <= List.length xs)%nat ->
  Sorted (fun a b => b < a) xs ->
  exists rsi, calculate_rsi xs period self = (Return rsi, self) /\ rsi == 0.
Proof.
  intros <- Hlen Hfalling.
  rewrite (calculate_rsi_run self period Hlen).
  set (deltas := price_deltas (prices self)).
  assert (Hneg : Forall (fun d => d < 0) deltas) by (now apply price_deltas_falling).
  assert (Hne : deltas <> []).
  { intros E. apply (f_equal (@List.length Q)) in E.
    unfold deltas in E. rewrite price_deltas_length in E. simpl in E. lia. }
  assert (Hn : 0 < inject_Z (len (map loss_of deltas))).
  { apply inject_Z_pos. unfold len. rewrite length_map.
    destruct deltas; [contradiction | simpl; lia]. }
  assert (Hgain : sum (map gain_of deltas) / inject_Z (len (map gain_of deltas)) == 0).
  { rewrite sum_fold_right, gains_of_falling by exact Hneg.
    unfold Qdiv. apply Qmult_0_l. }
  assert (Hloss : 0 < sum (map loss_of deltas) / inject_Z (len (map loss_of deltas))).
  { apply Qlt_shift_div_l; [exact Hn|]. rewrite Qmult_0_l, sum_fold_right.
    now apply losses_of_falling. }
  set (ag := sum (map gain_of deltas) / _) in *.
  set (al := sum (map loss_of deltas) / _) in *.
  assert (Hrs : ag / al == 0) by (rewrite Hgain; unfold Qdiv; apply Qmult_0_l).
  erewrite bind_return.
  2:{ apply truediv_ok. intros E. rewrite E in Hloss. exact (Qlt_irrefl 0 Hloss). }
  erewrite bind_return.
  2:{ apply truediv_ok. rewrite Hrs. discriminate. }
  eexists. split; [reflexivity|]. rewrite Hrs. reflexivity.
Qed.

Lemma calculate_rsi_always_falling_witness :
  exists rsi,
    calculate_rsi [9; 5; 4] 14 (mkSelf [] [9; 5; 4])
    = (Return rsi, mkSelf [] [9; 5; 4]) /\ rsi == 0.
Proof.
  apply (@calculate_rsi_always_falling (mkSelf [] [9; 5; 4]) [9; 5; 4] 14).
  - reflexivity.
  - simpl; lia.
  - repeat constructor.
Defined.
